(** * django-auditlog: the relation registry and the logging model

    Shallow embedding of [auditlog/relations.py] (the
    [LogRelationsRegistry] dictionary and its validator) together with
    the logging behaviour exercised by [testapp/tests.py]. *)

From Stdlib Require Import String Ascii List Bool Arith Lia.
From stdpp Require Import base option list gmap strings fin_maps.

Import ListNotations.
Local Open Scope string_scope.
Local Open Scope list_scope.

(** ** Python strings: [str.split(sep)] and [sep.join(parts)] *)

Module PyStr.

(** Put a character in front of the first component of a split. *)
Definition cons_head (c : ascii) (parts : list string) : list string :=
  match parts with
  | [] => [String c EmptyString]
  | h :: t => String c h :: t
  end.

(** [split_from sep skip s]: the components of [s] cut at the leftmost,
    non-overlapping occurrences of [sep]; [skip] counts the characters
    of an occurrence of [sep] that are still to be passed over. *)
Fixpoint split_from (sep : string) (skip : nat) (s : string) : list string :=
  match s with
  | EmptyString => [EmptyString]
  | String c s' =>
      match skip with
      | S k => split_from sep k s'
      | O =>
          if String.prefix sep s
          then EmptyString :: split_from sep (String.length sep - 1) s'
          else cons_head c (split_from sep 0 s')
      end
  end.

(** [s.split(sep)] for a non-empty separator. *)
Definition str_split (sep s : string) : list string := split_from sep 0 s.

(** [sep.join(parts)]. *)
Definition str_join (sep : string) (parts : list string) : string :=
  String.concat sep parts.

(** A name in which every underscore is followed by a character that is
    not an underscore: it holds no ["__"] and does not end in ["_"]. *)
Fixpoint lone_underscores (s : string) : bool :=
  match s with
  | EmptyString => true
  | String c s' =>
      if Ascii.eqb c "_"%char
      then match s' with
           | EmptyString => false
           | String d _ => negb (Ascii.eqb d "_"%char) && lone_underscores s'
           end
      else lone_underscores s'
  end.

(** Does [s] hold two underscores in a row? *)
Fixpoint has_dunder (s : string) : bool :=
  match s with
  | EmptyString => false
  | String c s' =>
      match s' with
      | EmptyString => false
      | String d _ =>
          (Ascii.eqb c "_"%char && Ascii.eqb d "_"%char) || has_dunder s'
      end
  end.

End PyStr.

(** ** Exceptions and the state-and-exception monad *)

(** [ValueError] is raised by the validator, [FieldDoesNotExist] by the
    framework's [get_field]; [AlreadyActiveError] is the specification's
    error of the actor context, and [ValidationError] the failure that the
    middleware test hands to [process_exception]. *)
Inductive exn : Type :=
| ValueError (msg : string)
| FieldDoesNotExist
| AlreadyActiveError
| ValidationError (msg : string).

Inductive result (A : Type) : Type :=
| Ok (a : A)
| Raise (e : exn).
Arguments Ok {A} a.
Arguments Raise {A} e.

(** A computation over a mutable object of type [S]: it returns a value or
    raises, and in both cases leaves the object in some state. *)
Definition M (S A : Type) : Type := S -> result A * S.

Definition ret {S A : Type} (a : A) : M S A := fun s => (Ok a, s).

Definition raise {S A : Type} (e : exn) : M S A := fun s => (Raise e, s).

Definition bind {S A B : Type} (c : M S A) (k : A -> M S B) : M S B :=
  fun s =>
    match c s with
    | (Ok a, s') => k a s'
    | (Raise e, s') => (Raise e, s')
    end.

Declare Scope py_scope.
Delimit Scope py_scope with py.
Notation "x <- c ;; k" := (bind c (fun x => k))
  (at level 100, c at next level, right associativity) : py_scope.
Notation "c ;; k" := (bind c (fun _ => k))
  (at level 100, right associativity) : py_scope.

(** ** The framework's model metadata *)

(** What [isinstance(field, RelatedField)] tells apart: a relation, with
    the model it leads to ([field.related.parent_model]), or any other
    field. *)
Inductive Field (Model : Type) : Type :=
| RelatedField (parent_model : Model)
| PlainField.
Arguments RelatedField {Model} parent_model.
Arguments PlainField {Model}.

(** [get_field m name] is [m._meta.get_field(name)]; [None] stands for the
    framework raising [FieldDoesNotExist].  [model_str m] is [str(m)], as
    used by the ['%s'] conversions of the error message. *)
Class ModelMeta (Model : Type) : Type := {
  get_field : Model -> string -> option (Field Model);
  model_str : Model -> string
}.

(** ** auditlog/relations.py *)

Module Relations.

(** The registry is a [dict] from model classes to the [relations]
    object handed to [register]; the iterable is kept as the list of
    its elements in iteration order. *)
Abbreviation LogRelationsRegistry Model := (gmap Model (list string))
  (only parsing).

Section Registry.
Context {Model : Type} `{Countable Model} `{!ModelMeta Model}.

Local Open Scope py_scope.

(** ["Error on '%s': '%s' has no relation '%s'" % (model, parent, part)] *)
Definition error_message (model parent : Model) (part : string) : string :=
  "Error on '" ++ model_str model ++ "': '" ++ model_str parent
    ++ "' has no relation '" ++ part ++ "'".

(** [parent._meta.get_field(part)] *)
Definition meta_get_field {S : Type} (parent : Model) (part : string)
  : M S (Field Model) :=
  match get_field parent part with
  | Some f => ret f
  | None => raise FieldDoesNotExist
  end.

(** The inner loop, [for part in relation.split('__')], started at
    [parent]. *)
Fixpoint validate_parts {S : Type} (model parent : Model)
    (parts : list string) : M S unit :=
  match parts with
  | [] => ret tt
  | part :: rest =>
      field <- meta_get_field parent part ;;
      match field with
      | RelatedField related => validate_parts model related rest
      | PlainField => raise (ValueError (error_message model parent part))
      end
  end.

(** One turn of the outer loop. *)
Definition validate_relation {S : Type} (model : Model) (relation : string)
  : M S unit :=
  validate_parts model model (PyStr.str_split "__" relation).

(** [for relation in relations: ...] *)
Fixpoint _validate_relations {S : Type} (model : Model)
    (relations : list string) : M S unit :=
  match relations with
  | [] => ret tt
  | relation :: rest =>
      validate_relation model relation ;;
      _validate_relations model rest
  end.

(** [self[model] = relations] *)
Definition setitem (model : Model) (relations : list string)
  : M (LogRelationsRegistry Model) unit :=
  fun self => (Ok tt, <[model := relations]> self).

(** [self.pop(model, None)] *)
Definition pop_default (model : Model)
  : M (LogRelationsRegistry Model) (option (list string)) :=
  fun self => (Ok (self !! model), delete model self).

Definition register (model : Model) (relations : list string)
  : M (LogRelationsRegistry Model) unit :=
  _validate_relations model relations ;;
  setitem model relations.

Definition unregister (model : Model) : M (LogRelationsRegistry Model) unit :=
  pop_default model ;;
  ret tt.

(** [logrels = LogRelationsRegistry()] *)
Definition logrels : LogRelationsRegistry Model := ∅.

(** [auditrels = logrels] *)
Definition auditrels : LogRelationsRegistry Model := logrels.

(** *** What a valid registration is

    The reading of "every component names a relational field" that the
    validator is compared with: walk the components from a starting model,
    moving to the related model after each hop. *)
Fixpoint follow (parent : Model) (parts : list string) : option Model :=
  match parts with
  | [] => Some parent
  | part :: rest =>
      match get_field parent part with
      | Some (RelatedField related) => follow related rest
      | _ => None
      end
  end.

(** A relation path all of whose components are relations. *)
Definition resolves (model : Model) (relation : string) : Prop :=
  is_Some (follow model (PyStr.str_split "__" relation)).

(** [part] is a component of [relation] reached, hop by hop, at the model
    [parent]. *)
Definition reaches (model : Model) (relation : string)
    (parent : Model) (part : string) : Prop :=
  ∃ before after,
    PyStr.str_split "__" relation = before ++ part :: after
    ∧ follow model before = Some parent.

(** How the validator ends at an offending component: with its own
    [ValueError] at a field that is no relation, with the framework's
    [FieldDoesNotExist] at a name that is no field. *)
Definition stops_at {S : Type} (model parent : Model) (part : string)
    (out : result unit * S) (s : S) : Prop :=
  (get_field parent part = Some PlainField
   ∧ out = (Raise (ValueError (error_message model parent part)), s))
  ∨ (get_field parent part = None ∧ out = (Raise FieldDoesNotExist, s)).

#[export] Instance resolves_dec (model : Model) (relation : string) :
  Decision (resolves model relation) :=
  is_Some_dec (follow model (PyStr.str_split "__" relation)).

(** *** Histories of calls

    A caller that goes on after a failed [register] has caught the
    exception; the registry is what the call left behind. *)
Inductive Call : Type :=
| Register (model : Model) (relations : list string)
| Unregister (model : Model).

Definition call (c : Call) : M (LogRelationsRegistry Model) unit :=
  match c with
  | Register model relations => register model relations
  | Unregister model => unregister model
  end.

Fixpoint run (calls : list Call) (self : LogRelationsRegistry Model)
  : LogRelationsRegistry Model :=
  match calls with
  | [] => self
  | c :: rest => run rest (snd (call c self))
  end.

(** The registration a history leaves for [model]: that of the last
    [Register] of [model] whose relations all resolve, unless an
    [Unregister] of [model] came after it. *)
Fixpoint current_registration (model : Model) (calls : list Call)
    (known : option (list string)) : option (list string) :=
  match calls with
  | [] => known
  | Register m relations :: rest =>
      if decide (m = model ∧ Forall (resolves m) relations)
      then current_registration model rest (Some relations)
      else current_registration model rest known
  | Unregister m :: rest =>
      if decide (m = model)
      then current_registration model rest None
      else current_registration model rest known
  end.

(** The model a call is about. *)
Definition call_model (c : Call) : Model :=
  match c with
  | Register model _ => model
  | Unregister model => model
  end.

(** Every registration that the registry holds is one that the validator
    lets through. *)
Definition well_registered (self : LogRelationsRegistry Model) : Prop :=
  ∀ model relations,
    self !! model = Some relations -> Forall (resolves model) relations.

End Registry.

(** The errors with which a registration is turned down: the validator's
    own [ValueError] and the framework's [FieldDoesNotExist], which passes
    through it.  The specification names them [InvalidRelationError]. *)
Definition InvalidRelationError (e : exn) : Prop :=
  match e with
  | ValueError _ | FieldDoesNotExist => True
  | AlreadyActiveError | ValidationError _ => False
  end.

(** [needle] occurs in [text]. *)
Definition mentions (needle text : string) : Prop :=
  ∃ before after, text = (before ++ needle ++ after)%string.

End Relations.


(** ** The parts of the package that are not in the source tree

    [auditlog/models.py], [auditlog/receivers.py], [auditlog/diff.py] and
    [auditlog/middleware.py] are exercised by [testapp/tests.py] only; the
    definitions below follow the specification's component design. *)

Module Audit.

(** Modelled from the spec: the value snapshots handed to the DiffEngine
    ("mapping<field, value>") and its result, a "mapping from field name
    to a (before, after) pair of string representations"; the diff module
    is missing from the source tree. *)
Abbreviation Snapshot Value := (gmap string Value) (only parsing).
Abbreviation Changes := (gmap string (string * string)) (only parsing).

Section Logging.
Context {Model : Type} `{Countable Model}.
Context {Value Actor : Type}.

(** Modelled from the spec: the registry has no lookup method of its own
    in [relations.py] (it is a bare [dict] subclass) and its readers are
    not part of the source tree; [resolve(entity_type)] "returns the
    registered relation paths for the type, or empty set if none
    registered". *)
Definition resolve (entity_type : Model) (self : gmap Model (list string))
  : list string :=
  match self !! entity_type with
  | Some relations => relations
  | None => []
  end.

(** *** ActorContext *)

(** Modelled from the spec: the middleware that holds the acting user and
    connects the signal listeners is missing; the context is a single slot
    with the listener state, INACTIVE when the slot is empty and the
    listeners are detached. *)
Record ActorContext : Type := {
  current_actor : option Actor;
  listeners_attached : bool
}.

(** Modelled from the spec: the two states of the missing middleware's
    context, "INACTIVE -> ACTIVE -> INACTIVE". *)
Definition INACTIVE : ActorContext :=
  {| current_actor := None; listeners_attached := false |}.

Definition ACTIVE (actor : Actor) : ActorContext :=
  {| current_actor := Some actor; listeners_attached := true |}.

(** Modelled from the spec: [begin(actor)] "sets the current actor for the
    active unit of work; fails with AlreadyActiveError if already set",
    leaving "the existing actor and listener state" unchanged. *)
Definition begin (actor : Actor) : M ActorContext unit :=
  fun ctx =>
    match current_actor ctx with
    | Some _ => (Raise AlreadyActiveError, ctx)
    | None => (Ok tt, ACTIVE actor)
    end.

(** Modelled from the spec: [current()] "reads the current value without
    side effects". *)
Definition current : M ActorContext (option Actor) :=
  fun ctx => (Ok (current_actor ctx), ctx).

(** Modelled from the spec: [end()] "clears the actor; must be safe to
    call even if begin was never called"; [ACTIVE -> INACTIVE] "via end,
    reachable from either state". *)
Definition end_ : M ActorContext unit :=
  fun _ => (Ok tt, INACTIVE).

(** Modelled from the spec: the host's request pipeline invokes
    [on_begin(actor)] before the unit of work and [on_end()] after it, on
    the normal path (the response) and on the failure path (the
    exception) alike; the outcome of the work itself is handed on. *)
Definition unit_of_work {A : Type} (actor : Actor) (work : M ActorContext A)
  : M ActorContext A :=
  fun ctx =>
    match begin actor ctx with
    | (Raise e, ctx') => (Raise e, ctx')
    | (Ok _, ctx1) =>
        let '(outcome, ctx2) := work ctx1 in
        let '(_, ctx3) := end_ ctx2 in
        (outcome, ctx3)
    end.

(** *** DiffEngine *)


(** Modelled from the spec: [diff(old_values, new_values)] "for every
    field present in either snapshot, compares string representations of
    old and new values; includes the field in the result iff the
    representations differ"; a field absent from the old snapshot is
    "treated as changed from a sentinel absent representation", and a
    field absent from the new one is compared with that sentinel.  The
    result is a mapping; the order of its fields is not modelled. *)
Definition diff_field (repr : Value -> string) (absent_repr : string)
    (old new : option Value) : option (string * string) :=
  match old, new with
  | Some v, Some v' =>
      if decide (repr v = repr v') then None else Some (repr v, repr v')
  | None, Some v' => Some (absent_repr, repr v')
  | Some v, None =>
      if decide (repr v = absent_repr) then None else Some (repr v, absent_repr)
  | None, None => None
  end.

(** Modelled from the spec: the missing [diff], field by field over
    "every field present in either snapshot". *)
Definition diff (repr : Value -> string) (absent_repr : string)
    (old_values new_values : Snapshot Value) : Changes :=
  merge (diff_field repr absent_repr) old_values new_values.

(** *** LogEntryFactory *)

(** Modelled from the spec: the records of the missing [models.py],
    "action: one of {CREATE, UPDATE, DELETE}", the LogEntry with its
    entity, changes, actor and timestamp, and the RelatedLogEntry that
    links a LogEntry to an ancestor entity under a relation path. *)
Inductive Action : Type := CREATE | UPDATE | DELETE.

Record LogEntry : Type := {
  entity_type : Model;
  entity_id : string;
  entity_repr : string;
  action : Action;
  changes : Changes;
  actor : option Actor;
  timestamp : nat
}.

Record RelatedLogEntry : Type := {
  log_entry : LogEntry;
  related_entity_type : Model;
  related_entity_id : string;
  relation : string
}.

(** Modelled from the spec: an entity as the host hands it to the
    missing receivers, with its type, identifier, representation and
    current field values. *)
Record Entity : Type := {
  ent_type : Model;
  ent_id : string;
  ent_repr : string;
  ent_values : Snapshot Value
}.

(** Modelled from the spec: the store behind the missing persistence
    layer's [save(LogEntry)] and [save(RelatedLogEntry)], "append-only
    writes". *)
Record Store : Type := {
  log_entries : list LogEntry;
  related_log_entries : list RelatedLogEntry
}.

Definition empty_store : Store :=
  {| log_entries := []; related_log_entries := [] |}.

(** Modelled from the spec: [record] "constructs and appends exactly one
    LogEntry", except that "UPDATE actions with an empty diff must NOT be
    recorded". *)
Definition record (etype : Model) (eid erepr : string) (act : Action)
    (d : Changes) (who : option Actor) (now : nat) (st : Store)
  : option LogEntry * Store :=
  match act with
  | UPDATE =>
      if decide (d = ∅) then (None, st)
      else
        let e := {| entity_type := etype; entity_id := eid;
                    entity_repr := erepr; action := UPDATE; changes := d;
                    actor := who; timestamp := now |} in
        (Some e, {| log_entries := log_entries st ++ [e];
                    related_log_entries := related_log_entries st |})
  | _ =>
      let e := {| entity_type := etype; entity_id := eid;
                  entity_repr := erepr; action := act; changes := d;
                  actor := who; timestamp := now |} in
      (Some e, {| log_entries := log_entries st ++ [e];
                  related_log_entries := related_log_entries st |})
  end.

(** Modelled from the spec: [propagate] "for each relation path registered
    for entity_type" walks the path with the host's [resolve_related] and,
    "if the ancestor resolves", creates one RelatedLogEntry "with
    relation = path"; an ancestor that does not exist is skipped. *)
(** Modelled from the spec: the RelatedLogEntry that the missing
    [propagate] creates, "linking back to log_entry with relation = path". *)
Definition related_entry (e : LogEntry) (ancestor : Entity) (path : string)
  : RelatedLogEntry :=
  {| log_entry := e;
     related_entity_type := ent_type ancestor;
     related_entity_id := ent_id ancestor;
     relation := path |}.

Definition propagate_path (resolve_related : Entity -> string -> option Entity)
    (e : LogEntry) (ent : Entity) (path : string) : list RelatedLogEntry :=
  match resolve_related ent path with
  | Some ancestor => [related_entry e ancestor path]
  | None => []
  end.

(** Modelled from the spec: the missing [propagate], over the paths that
    [resolve] returns for the type of the entity. *)
Definition propagate (resolve_related : Entity -> string -> option Entity)
    (registry : gmap Model (list string)) (e : LogEntry) (ent : Entity)
  : list RelatedLogEntry :=
  flat_map (propagate_path resolve_related e ent)
           (resolve (ent_type ent) registry).

(** Modelled from the spec: actor resolution order, "explicit actor
    argument > ActorContext's current value > absent". *)
Definition resolve_actor (explicit : option Actor) (ctx : ActorContext)
  : option Actor :=
  match explicit with
  | Some a => Some a
  | None => current_actor ctx
  end.

(** Modelled from the spec: the control flow on an entity mutation, "the
    host notifies LogEntryFactory with old/new state; LogEntryFactory
    invokes DiffEngine, reads the acting identity from ActorContext (or an
    explicit override), creates a primary log entry, then consults
    RelationRegistry to create zero or more related entries". *)
Definition notify (repr : Value -> string) (absent_repr : string)
    (resolve_related : Entity -> string -> option Entity)
    (registry : gmap Model (list string)) (ctx : ActorContext)
    (act : Action) (ent : Entity) (old_values new_values : Snapshot Value)
    (explicit : option Actor) (now : nat) (st : Store) : Store :=
  let d := diff repr absent_repr old_values new_values in
  match record (ent_type ent) (ent_id ent) (ent_repr ent) act d
               (resolve_actor explicit ctx) now st with
  | (None, st') => st'
  | (Some e, st') =>
      {| log_entries := log_entries st';
         related_log_entries :=
           related_log_entries st'
             ++ propagate resolve_related registry e ent |}
  end.

(** Modelled from the spec: the three notifications of the missing
    receivers; a creation has no old values and a deletion no new ones. *)
Definition on_create repr absent_repr resolve_related registry ctx
    (ent : Entity) explicit now : Store -> Store :=
  notify repr absent_repr resolve_related registry ctx
         CREATE ent ∅ (ent_values ent) explicit now.

Definition on_update repr absent_repr resolve_related registry ctx
    (old_values : Snapshot Value) (ent : Entity) explicit now : Store -> Store :=
  notify repr absent_repr resolve_related registry ctx
         UPDATE ent old_values (ent_values ent) explicit now.

Definition on_delete repr absent_repr resolve_related registry ctx
    (ent : Entity) explicit now : Store -> Store :=
  notify repr absent_repr resolve_related registry ctx
         DELETE ent (ent_values ent) ∅ explicit now.

(** Modelled from the spec: the [related_history] of an entity, which
    the tests read and the missing [models.py] defines, as the related
    entries whose related entity it is. *)
Definition related_history (target : Entity) (st : Store)
  : list RelatedLogEntry :=
  filter (fun r => related_entity_type r = ent_type target
                   ∧ related_entity_id r = ent_id target)
         (related_log_entries st).

End Logging.
End Audit.

(** ** The models of the test application

    [SimpleModel] has the fields [text] and [boolean]; [SimpleChildModel]
    has [text] and a foreign key [parent] to [SimpleModel].
    [GrandChildModel], with a foreign key [child] to [SimpleChildModel],
    is added to have a path of two hops. *)

Module TestApp.

Definition fields_of (m : string) : list (string * Field string) :=
  if String.eqb m "SimpleModel" then
    [("id", PlainField); ("text", PlainField); ("boolean", PlainField)]
  else if String.eqb m "SimpleChildModel" then
    [("id", PlainField); ("parent", RelatedField "SimpleModel");
     ("text", PlainField)]
  else if String.eqb m "GrandChildModel" then
    [("id", PlainField); ("child", RelatedField "SimpleChildModel")]
  else [].

Fixpoint assoc {A : Type} (name : string) (l : list (string * A)) : option A :=
  match l with
  | [] => None
  | (k, v) :: rest => if String.eqb k name then Some v else assoc name rest
  end.

#[export] Instance test_meta : ModelMeta string := {|
  get_field m name := assoc name (fields_of m);
  model_str m := ("<class 'testapp.models." ++ m ++ "'>")%string
|}.

Inductive PyValue : Type :=
| PyBool (b : bool)
| PyText (s : string)
| PyRef (pk : string).

(** [str(value)] *)
Definition py_str (v : PyValue) : string :=
  match v with
  | PyBool true => "True"
  | PyBool false => "False"
  | PyText s => s
  | PyRef pk => pk
  end.

Definition the_parent : @Audit.Entity string PyValue :=
  {| Audit.ent_type := "SimpleModel";
     Audit.ent_id := "1";
     Audit.ent_repr := "I am your father.";
     Audit.ent_values :=
       {[ "text" := PyText "I am your father."; "boolean" := PyBool false ]} |}.

Definition the_child : @Audit.Entity string PyValue :=
  {| Audit.ent_type := "SimpleChildModel";
     Audit.ent_id := "1";
     Audit.ent_repr := "I guess so.";
     Audit.ent_values :=
       {[ "text" := PyText "I guess so."; "parent" := PyRef "1" ]} |}.

Definition simple_obj (flag : bool) : @Audit.Entity string PyValue :=
  {| Audit.ent_type := "SimpleModel";
     Audit.ent_id := "1";
     Audit.ent_repr := "I am not difficult.";
     Audit.ent_values :=
       {[ "text" := PyText "I am not difficult."; "boolean" := PyBool flag ]} |}.

(** The host's relation traversal on these two objects. *)
Definition test_resolve_related (ent : @Audit.Entity string PyValue)
    (path : string) : option (@Audit.Entity string PyValue) :=
  if String.eqb (Audit.ent_type ent) "SimpleChildModel"
     && String.eqb path "parent"
  then Some the_parent else None.

End TestApp.

(** * Properties *)

(** ** Splitting on the double underscore *)

Module PyStrFacts.
Import PyStr.

Lemma prefix_cons (a b : ascii) (s1 s2 : string) :
  String.prefix (String a s1) (String b s2)
  = if ascii_dec a b then String.prefix s1 s2 else false.
Proof. reflexivity. Qed.

Lemma prefix_dunder_true (c : ascii) (r : string) :
  String.prefix "__" (String c r) = true ->
  c = "_"%char /\ exists r', r = String "_" r'.
Proof.
  rewrite prefix_cons. destruct (ascii_dec "_" c) as [<- | _]; [| discriminate].
  destruct r as [| d r']; [discriminate |].
  rewrite prefix_cons. destruct (ascii_dec "_" d) as [<- | _]; [| discriminate].
  intros _. eauto.
Qed.

Lemma prefix_nil (s : string) : String.prefix "" s = true.
Proof. by destruct s. Qed.

Lemma prefix_dunder_sep (r : string) :
  String.prefix "__" (String "_" (String "_" r)) = true.
Proof.
  rewrite !prefix_cons. destruct (ascii_dec "_" "_"); [| done].
  apply prefix_nil.
Qed.

Lemma split_dunder_sep (r : string) :
  split_from "__" 0 (String "_" (String "_" r)) = "" :: split_from "__" 0 r.
Proof. cbn [split_from]. by rewrite prefix_dunder_sep. Qed.

Lemma split_dunder_char (c : ascii) (r : string) :
  String.prefix "__" (String c r) = false ->
  split_from "__" 0 (String c r) = cons_head c (split_from "__" 0 r).
Proof. intros Hp. cbn [split_from]. by rewrite Hp. Qed.

Lemma split_from_nonempty (sep : string) (s : string) :
  forall skip, split_from sep skip s <> [].
Proof.
  induction s as [| c s IH]; intros skip; cbn [split_from]; [done |].
  destruct skip; [| apply IH].
  destruct (String.prefix sep (String c s)); [done |].
  specialize (IH 0). by destruct (split_from sep 0 s).
Qed.

Lemma join_cons_head (sep : string) (c : ascii) (parts : list string) :
  parts <> [] ->
  str_join sep (cons_head c parts) = String c (str_join sep parts).
Proof.
  destruct parts as [| h [| h' t]]; [done | done |].
  intros _. reflexivity.
Qed.

(** Joining the components of a path gives the path back; by induction
    on a bound of the length, as a separator takes two characters. *)
Lemma join_split_dunder_aux (n : nat) :
  forall s, String.length s <= n ->
            str_join "__" (split_from "__" 0 s) = s.
Proof.
  induction n as [| n IH]; intros [| c s] Hlen; try reflexivity.
  - cbn [String.length] in Hlen. lia.
  - cbn [String.length] in Hlen.
    destruct (String.prefix "__" (String c s)) eqn:Hp.
    + apply prefix_dunder_true in Hp as [-> [r' ->]].
      rewrite split_dunder_sep. unfold str_join.
      pose proof (split_from_nonempty "__" r' 0) as Hne.
      specialize (IH r'). cbn [String.length] in Hlen.
      unfold str_join in IH. cbn [String.concat].
      destruct (split_from "__" 0 r') as [| h t]; [done |].
      cbn [String.append]. rewrite IH by lia. reflexivity.
    + rewrite split_dunder_char by done.
      rewrite join_cons_head by apply split_from_nonempty.
      rewrite IH by lia. reflexivity.
Qed.

Lemma join_split_dunder (s : string) :
  str_join "__" (str_split "__" s) = s.
Proof. by apply (join_split_dunder_aux (String.length s)). Qed.

Lemma lone_underscores_tail (c : ascii) (p : string) :
  lone_underscores (String c p) = true ->
  lone_underscores p = true
  /\ forall r, String.prefix "__" (String c (p ++ r)) = false.
Proof.
  cbn [lone_underscores]. destruct (Ascii.eqb_spec c "_") as [-> | Hc].
  - destruct p as [| d p']; [discriminate |].
    destruct (Ascii.eqb_spec d "_") as [-> | Hd]; [discriminate |].
    cbn [negb andb]. intros Hp. split; [done |]. intros r.
    change (String d p' ++ r)%string with (String d (p' ++ r))%string.
    rewrite prefix_cons. destruct (ascii_dec "_" "_"); [| done].
    rewrite prefix_cons. destruct (ascii_dec "_" d); [congruence | done].
  - intros Hp. split; [done |]. intros r. rewrite prefix_cons.
    destruct (ascii_dec "_" c); [congruence | done].
Qed.

Lemma append_empty_r (p : string) : (p ++ "")%string = p.
Proof.
  induction p as [| c p IH]; [done |].
  change (String c (p ++ "")%string = String c p). by rewrite IH.
Qed.

Lemma append_assoc (a b c : string) :
  ((a ++ b) ++ c)%string = (a ++ (b ++ c))%string.
Proof.
  induction a as [| x a IH]; [done |].
  change (String x ((a ++ b) ++ c)%string = String x (a ++ (b ++ c))%string).
  by rewrite IH.
Qed.

Lemma split_lone (p : string) :
  lone_underscores p = true -> split_from "__" 0 p = [p].
Proof.
  induction p as [| c p IH]; [reflexivity |].
  intros Hp. apply lone_underscores_tail in Hp as [Hp Hpre].
  specialize (Hpre ""). rewrite append_empty_r in Hpre.
  rewrite split_dunder_char by done. by rewrite IH.
Qed.

Lemma split_lone_sep (p r : string) :
  lone_underscores p = true ->
  split_from "__" 0 (p ++ "__" ++ r) = p :: split_from "__" 0 r.
Proof.
  induction p as [| c p IH]; [intros _; apply split_dunder_sep |].
  intros Hp. apply lone_underscores_tail in Hp as [Hp Hpre].
  change (String c p ++ "__" ++ r)%string
    with (String c (p ++ "__" ++ r))%string.
  rewrite split_dunder_char by apply Hpre.
  by rewrite IH.
Qed.

Lemma split_join_dunder (parts : list string) :
  parts <> [] ->
  Forall (fun p => lone_underscores p = true) parts ->
  str_split "__" (str_join "__" parts) = parts.
Proof.
  unfold str_split, str_join.
  induction parts as [| p [| q parts] IH]; [done | |].
  - intros _ Hall. apply Forall_inv in Hall. by apply split_lone.
  - intros _ Hall. inversion Hall as [| ? ? Hp Hrest]; subst.
    cbn [String.concat]. rewrite split_lone_sep by done.
    f_equal. by apply IH.
Qed.

End PyStrFacts.

(** ** The validator *)

Module RelationsFacts.
Import Relations.

Section Validator.
Context {Model : Type} `{Countable Model} `{!ModelMeta Model}.

Lemma stops_at_raises {S : Type} model parent part (out : result unit * S) s :
  stops_at model parent part out s ->
  ∃ e, out = (Raise e, s) ∧ InvalidRelationError e
       ∧ (e = FieldDoesNotExist
          ∨ e = ValueError (error_message model parent part)).
Proof. intros [[_ ->] | [_ ->]]; eexists; (split; [done |]); split; auto; done. Qed.

Lemma follow_app (parent : Model) (before after : list string) :
  follow parent (before ++ after)
  = match follow parent before with
    | Some p => follow p after
    | None => None
    end.
Proof.
  revert parent. induction before as [| part before IH]; intros parent; [done |].
  cbn [app follow]. destruct (get_field parent part) as [[related |] |]; auto.
Qed.

Lemma validate_parts_spec {S : Type} (model : Model) (parts : list string) :
  forall (parent : Model) (s : S),
    match follow parent parts with
    | Some _ => validate_parts model parent parts s = (Ok tt, s)
    | None =>
        ∃ before part after p,
          parts = before ++ part :: after
          ∧ follow parent before = Some p
          ∧ stops_at model p part (validate_parts model parent parts s) s
    end.
Proof.
  induction parts as [| part rest IH]; intros parent s; [done |].
  cbn [follow validate_parts]. unfold bind, meta_get_field, stops_at.
  destruct (get_field parent part) as [[related |] |] eqn:Hfield.
  - cbn [ret]. specialize (IH related s).
    destruct (follow related rest); [done |].
    destruct IH as (before & part' & after & p & -> & Hfollow & Hstop).
    exists (part :: before), part', after, p.
    split; [done |]. split; [| done].
    cbn [follow]. by rewrite Hfield.
  - exists [], part, rest, parent. split; [done |]. split; [done |]. by left.
  - exists [], part, rest, parent. split; [done |]. split; [done |]. by right.
Qed.

Lemma validate_parts_state {S : Type} (model parent : Model) parts (s : S) :
  snd (validate_parts model parent parts s) = s.
Proof.
  pose proof (validate_parts_spec model parts parent s) as Hspec.
  destruct (follow parent parts).
  - by rewrite Hspec.
  - destruct Hspec as (? & ? & ? & ? & _ & _ & [[_ ->] | [_ ->]]); done.
Qed.

(** The inner loop stops at the first component that is no relation. *)
Lemma validate_parts_stops {S : Type} (model parent p : Model)
    (before after : list string) (part : string) (s : S) :
  follow parent before = Some p ->
  (forall related, get_field p part <> Some (RelatedField related)) ->
  stops_at model p part
    (validate_parts model parent (before ++ part :: after) s) s.
Proof.
  revert parent. induction before as [| b before IH]; intros parent.
  - intros [= ->] Hno. cbn [app validate_parts].
    unfold bind, meta_get_field, stops_at.
    destruct (get_field p part) as [[related |] |] eqn:Hfield.
    + by destruct (Hno related).
    + by left.
    + by right.
  - cbn [follow app validate_parts]. unfold bind, meta_get_field.
    destruct (get_field parent b) as [[related |] |]; [| done | done].
    cbn [ret]. apply IH.
Qed.

Lemma validate_relation_ok {S : Type} (model : Model) relation (s : S) :
  resolves model relation -> validate_relation model relation s = (Ok tt, s).
Proof.
  intros [target Hfollow]. unfold validate_relation.
  pose proof (validate_parts_spec model (PyStr.str_split "__" relation)
                model s) as Hspec.
  by rewrite Hfollow in Hspec.
Qed.

Lemma validate_relation_bad {S : Type} (model : Model) relation (s : S) :
  ¬ resolves model relation ->
  ∃ parent part,
    reaches model relation parent part
    ∧ stops_at model parent part (validate_relation model relation s) s.
Proof.
  intros Hbad. unfold validate_relation, reaches.
  pose proof (validate_parts_spec model (PyStr.str_split "__" relation)
                model s) as Hspec.
  destruct (follow model (PyStr.str_split "__" relation)) eqn:Hfollow.
  - destruct Hbad. by eexists.
  - destruct Hspec as (before & part & after & p & Hsplit & Hp & Hstop).
    exists p, part. split; [by exists before, after |]. done.
Qed.

(** The outer loop passes over the relations that resolve. *)
Lemma validate_relations_app {S : Type} (model : Model)
    (before rest : list string) (s : S) :
  Forall (resolves model) before ->
  _validate_relations model (before ++ rest) s
  = _validate_relations model rest s.
Proof.
  induction 1 as [| relation before Hrel _ IH]; [done |].
  cbn [app _validate_relations]. unfold bind at 1.
  by rewrite validate_relation_ok.
Qed.

Lemma validate_relations_ok {S : Type} (model : Model) relations (s : S) :
  Forall (resolves model) relations ->
  _validate_relations model relations s = (Ok tt, s).
Proof.
  intros Hall. rewrite <- (app_nil_r relations).
  by rewrite validate_relations_app.
Qed.

(** The outer loop ends with the error of the first relation that does
    not resolve. *)
Lemma validate_relations_first_bad {S : Type} (model : Model)
    (before after : list string) (relation : string) (e : exn) (s : S) :
  Forall (resolves model) before ->
  validate_relation model relation s = (Raise e, s) ->
  _validate_relations model (before ++ relation :: after) s = (Raise e, s).
Proof.
  intros Hall Hrel. rewrite validate_relations_app by done.
  cbn [_validate_relations]. unfold bind. by rewrite Hrel.
Qed.

Lemma first_unresolved (model : Model) (relations : list string) :
  ¬ Forall (resolves model) relations ->
  ∃ before relation after,
    relations = before ++ relation :: after
    ∧ Forall (resolves model) before
    ∧ ¬ resolves model relation.
Proof.
  induction relations as [| r relations IH]; intros Hnot.
  - destruct Hnot. constructor.
  - destruct (decide (resolves model r)) as [Hr | Hr].
    + destruct IH as (before & relation & after & -> & Hbefore & Hbad).
      { intros Hall. apply Hnot. by constructor. }
      exists (r :: before), relation, after. repeat split; [| done].
      by constructor.
    + exists [], r, relations. repeat split; [constructor | done].
Qed.

(** A failed validation, traced to the component it stopped at. *)
Lemma validate_relations_bad {S : Type} (model : Model) relations (s : S) :
  ¬ Forall (resolves model) relations ->
  ∃ relation parent part,
    relation ∈ relations
    ∧ reaches model relation parent part
    ∧ stops_at model parent part (_validate_relations model relations s) s.
Proof.
  intros Hnot.
  destruct (first_unresolved model relations Hnot)
    as (before & relation & after & -> & Hbefore & Hbad).
  destruct (validate_relation_bad model relation s Hbad)
    as (parent & part & Hreach & Hstop).
  exists relation, parent, part.
  split; [set_solver |]. split; [done |].
  destruct (stops_at_raises _ _ _ _ _ Hstop) as (e & He & _).
  rewrite (validate_relations_first_bad model before after relation e s);
    [by rewrite <- He | done | done].
Qed.

Lemma validate_relations_state {S : Type} (model : Model) relations (s : S) :
  snd (_validate_relations model relations s) = s.
Proof.
  destruct (decide (Forall (resolves model) relations)) as [Hall | Hnot].
  - by rewrite validate_relations_ok.
  - destruct (validate_relations_bad model relations s Hnot)
      as (? & ? & ? & _ & _ & [[_ ->] | [_ ->]]); done.
Qed.

(** The message of the [ValueError] holds [str(parent)] and [part]. *)
Lemma error_message_mentions (model parent : Model) (part : string) :
  mentions (model_str parent) (error_message model parent part)
  ∧ mentions part (error_message model parent part).
Proof.
  unfold mentions, error_message. split.
  - exists ("Error on '" ++ model_str model ++ "': '")%string,
           ("' has no relation '" ++ part ++ "'")%string.
    by rewrite !PyStrFacts.append_assoc.
  - exists ("Error on '" ++ model_str model ++ "': '" ++ model_str parent
             ++ "' has no relation '")%string, "'"%string.
    by rewrite !PyStrFacts.append_assoc.
Qed.

(** ** [register], [unregister] *)

Lemma register_ok (model : Model) (relations : list string)
    (self : gmap Model (list string)) :
  Forall (resolves model) relations ->
  register model relations self = (Ok tt, <[model := relations]> self).
Proof.
  intros Hall. unfold register, bind.
  by rewrite validate_relations_ok.
Qed.

Lemma register_bad (model : Model) (relations : list string)
    (self : gmap Model (list string)) :
  ¬ Forall (resolves model) relations ->
  ∃ relation parent part,
    relation ∈ relations
    ∧ reaches model relation parent part
    ∧ stops_at model parent part (register model relations self) self.
Proof.
  intros Hnot.
  destruct (validate_relations_bad model relations self Hnot)
    as (relation & parent & part & Hin & Hreach & Hstop).
  exists relation, parent, part. split; [done |]. split; [done |].
  unfold register, bind.
  by destruct Hstop as [[Hf ->] | [Hf ->]]; [left | right].
Qed.

Lemma register_state (model : Model) (relations : list string)
    (self : gmap Model (list string)) :
  snd (register model relations self) = <[model := relations]> self
  ∨ snd (register model relations self) = self.
Proof.
  destruct (decide (Forall (resolves model) relations)) as [Hall | Hnot].
  - left. by rewrite register_ok.
  - right. destruct (register_bad model relations self Hnot)
      as (? & ? & ? & _ & _ & [[_ ->] | [_ ->]]); done.
Qed.

Lemma register_lookup (m model : Model) (relations : list string)
    (self : gmap Model (list string)) :
  snd (register m relations self) !! model
  = if decide (m = model ∧ Forall (resolves m) relations)
    then Some relations
    else self !! model.
Proof.
  destruct (decide (Forall (resolves m) relations)) as [Hall | Hnot].
  - rewrite register_ok by done. cbn [snd].
    destruct (decide (m = model)) as [-> | Hne].
    + rewrite decide_True by done. apply lookup_insert_eq.
    + rewrite decide_False by tauto. by apply lookup_insert_ne.
  - rewrite decide_False by tauto.
    destruct (register_bad m relations self Hnot)
      as (? & ? & ? & _ & _ & [[_ ->] | [_ ->]]); done.
Qed.

Lemma unregister_lookup (m model : Model) (self : gmap Model (list string)) :
  snd (unregister m self) !! model
  = if decide (m = model) then None else self !! model.
Proof.
  unfold unregister, bind, pop_default, ret. cbn [snd].
  destruct (decide (m = model)) as [-> | Hne].
  - apply lookup_delete_eq.
  - by apply lookup_delete_ne.
Qed.

(** What a history of calls leaves registered for [model]. *)
Lemma run_lookup (model : Model) (calls : list Call) :
  forall (self : gmap Model (list string)),
    run calls self !! model
    = current_registration model calls (self !! model).
Proof.
  induction calls as [| [m relations | m] calls IH]; intros self; [done | |];
    cbn [run call current_registration]; rewrite IH.
  - rewrite register_lookup. by destruct (decide _).
  - rewrite unregister_lookup. by destruct (decide _).
Qed.

(** C1: [register(model, relations)] succeeds exactly when every
    component of every relation, followed hop by hop from [model], is a
    relation; when validation comes to a component that is a field but
    no relation, it raises the [ValueError] whose message holds the model
    it stopped at and the component; and every failure is at such a
    component or at a name the framework does not know. *)
Theorem register_succeeds_iff_every_hop_is_a_relation
    (model : Model) (relations : list string)
    (self : gmap Model (list string)) :
  (fst (register model relations self) = Ok tt
   ↔ Forall (resolves model) relations)
  ∧ (∀ before relation after parent part,
       relations = before ++ relation :: after ->
       Forall (resolves model) before ->
       reaches model relation parent part ->
       get_field parent part = Some PlainField ->
       fst (register model relations self)
       = Raise (ValueError (error_message model parent part))
       ∧ mentions (model_str parent) (error_message model parent part)
       ∧ mentions part (error_message model parent part))
  ∧ (∀ e, fst (register model relations self) = Raise e ->
       InvalidRelationError e
       ∧ ∃ relation parent part,
           relation ∈ relations
           ∧ reaches model relation parent part
           ∧ ((get_field parent part = Some PlainField
               ∧ e = ValueError (error_message model parent part))
              ∨ (get_field parent part = None ∧ e = FieldDoesNotExist))).
Proof.
  split; [| split].
  - split.
    + intros Hok.
      destruct (decide (Forall (resolves model) relations)) as [| Hnot];
        [done |].
      destruct (register_bad model relations self Hnot)
        as (? & ? & ? & _ & _ & [[_ Hr] | [_ Hr]]);
        rewrite Hr in Hok; discriminate.
    + intros Hall. by rewrite register_ok.
  - intros before relation after parent part -> Hbefore
           (b & a & Hsplit & Hfollow) Hfield.
    split; [| apply error_message_mentions].
    assert (validate_relation model relation self
            = (Raise (ValueError (error_message model parent part)), self))
      as Hrel.
    { unfold validate_relation. rewrite Hsplit.
      destruct (validate_parts_stops model model parent b a part self Hfollow)
        as [[_ ->] | [Hnone _]]; [congruence | done | congruence]. }
    unfold register, bind.
    by rewrite (validate_relations_first_bad model before after relation _
                  self Hbefore Hrel).
  - intros e He.
    destruct (decide (Forall (resolves model) relations)) as [Hall | Hnot].
    { rewrite register_ok in He by done. discriminate. }
    destruct (register_bad model relations self Hnot)
      as (relation & parent & part & Hin & Hreach & Hstop).
    destruct Hstop as [[Hf Hr] | [Hf Hr]]; rewrite Hr in He;
      injection He as <-; (split; [done |]);
      exists relation, parent, part; auto.
Qed.

(** C2: when some relation of [relations] does not resolve,
    [register(model, relations)] raises and the registry is what it was
    before the call, the earlier registration of [model] included. *)
Theorem register_invalid_raises_and_keeps_registry
    (model : Model) (relations : list string)
    (self : gmap Model (list string)) :
  Exists (fun relation => ¬ resolves model relation) relations ->
  ∃ e, InvalidRelationError e
       ∧ register model relations self = (Raise e, self)
       ∧ snd (register model relations self) !! model = self !! model.
Proof.
  intros Hex. apply Exists_not_Forall in Hex.
  destruct (register_bad model relations self Hex)
    as (? & ? & ? & _ & _ & [[_ Hr] | [_ Hr]]);
    eexists; rewrite Hr;
    (split; [| split; [reflexivity | reflexivity]]); exact I.
Qed.

(** C8: two registrations of [model] with relations that resolve leave
    the second ones registered. *)
Theorem register_last_write_wins
    (model : Model) (R1 R2 : list string) (self : gmap Model (list string)) :
  Forall (resolves model) R1 ->
  Forall (resolves model) R2 ->
  bind (register model R1) (fun _ => register model R2) self
  = (Ok tt, <[model := R2]> self)
  ∧ snd (bind (register model R1) (fun _ => register model R2) self) !! model
    = Some R2.
Proof.
  intros H1 H2.
  assert (bind (register model R1) (fun _ => register model R2) self
          = (Ok tt, <[model := R2]> self)) as ->.
  { unfold bind. rewrite register_ok by done.
    rewrite register_ok by done. by rewrite insert_insert_eq. }
  split; [done |]. cbn [snd]. apply lookup_insert_eq.
Qed.

(** C9: [unregister(model)] never raises and removes the registration of
    [model]; without a registration it changes nothing, and a second
    [unregister] in a row changes nothing more. *)
Theorem unregister_never_raises_and_is_idempotent
    (model : Model) (self : gmap Model (list string)) :
  fst (unregister model self) = Ok tt
  ∧ snd (unregister model self) !! model = None
  ∧ (self !! model = None -> unregister model self = (Ok tt, self))
  ∧ bind (unregister model) (fun _ => unregister model) self
    = unregister model self.
Proof.
  unfold unregister, bind, pop_default, ret. cbn [fst snd].
  split; [done |]. split; [apply lookup_delete_eq |]. split.
  - intros Hnone. by rewrite delete_id.
  - by rewrite delete_delete_eq.
Qed.

(** C10: neither [register(m, relations)], whether it succeeds or
    raises, nor [unregister(m)] changes what is registered for another
    model [m']. *)
Theorem other_models_keep_their_registration
    (m m' : Model) (relations : list string)
    (self : gmap Model (list string)) :
  m ≠ m' ->
  snd (register m relations self) !! m' = self !! m'
  ∧ snd (unregister m self) !! m' = self !! m'.
Proof.
  intros Hne. split.
  - destruct (register_state m relations self) as [-> | ->]; [| done].
    by apply lookup_insert_ne.
  - unfold unregister, bind, pop_default, ret. cbn [snd].
    by apply lookup_delete_ne.
Qed.

(** C4, as the code has it: a relation path is cut at the double
    underscore.  Every path is the ["__"]-join of its components, and the
    ["__"]-join of field names (none holding ["__"] or ending in ["_"])
    is cut back into these names, which the validator takes one hop
    each. *)
Theorem relation_path_is_cut_at_double_underscore :
  (∀ relation : string,
      PyStr.str_join "__" (PyStr.str_split "__" relation) = relation)
  ∧ (∀ (parts : list string),
       parts ≠ [] ->
       Forall (fun p => PyStr.lone_underscores p = true) parts ->
       PyStr.str_split "__" (PyStr.str_join "__" parts) = parts
       ∧ ∀ (model : Model) (s : gmap Model (list string)),
           validate_relation model (PyStr.str_join "__" parts) s
           = validate_parts model model parts s).
Proof.
  split; [apply PyStrFacts.join_split_dunder |].
  intros parts Hne Hall.
  pose proof (PyStrFacts.split_join_dunder parts Hne Hall) as Hsplit.
  split; [done |]. intros model s. unfold validate_relation.
  by rewrite Hsplit.
Qed.

End Validator.
End RelationsFacts.

(** ** Reading the registry, the actor context and the log *)

Module AuditFacts.
Import Relations Audit RelationsFacts.

Section Logging.
Context {Model : Type} `{Countable Model} `{!ModelMeta Model}.
Context {Value Actor : Type}.

Lemma resolve_lookup (model : Model) (self : gmap Model (list string)) :
  resolve model self = default [] (self !! model).
Proof. unfold resolve. by destruct (self !! model). Qed.

(** C3: [resolve(model)] is empty, not an error, for a model without a
    registration (never registered, or unregistered), and is the list of
    relations of the last successful registration otherwise; so it is
    after every history of [register] and [unregister] calls on the fresh
    registry. *)
Theorem resolve_returns_the_current_registration (model : Model) :
  (∀ self : gmap Model (list string),
      self !! model = None -> resolve model self = [])
  ∧ resolve model (logrels (Model := Model)) = []
  ∧ (∀ self : gmap Model (list string),
       resolve model (snd (unregister model self)) = [])
  ∧ (∀ relations (self self' : gmap Model (list string)),
       register model relations self = (Ok tt, self') ->
       resolve model self' = relations)
  ∧ (∀ calls : list Call,
       resolve model (run calls logrels)
       = default [] (current_registration model calls None)).
Proof.
  split; [| split; [| split; [| split]]].
  - intros self Hnone. by rewrite resolve_lookup, Hnone.
  - by rewrite resolve_lookup.
  - intros self. rewrite resolve_lookup, unregister_lookup.
    by rewrite decide_True.
  - intros relations self self' Hreg. rewrite resolve_lookup.
    replace self' with (snd (register model relations self))
      by (by rewrite Hreg).
    rewrite register_lookup. rewrite decide_True; [done |].
    split; [done |].
    destruct (decide (Forall (resolves model) relations)) as [| Hnot];
      [done |].
    destruct (register_bad model relations self Hnot)
      as (? & ? & ? & _ & _ & [[_ Hr] | [_ Hr]]);
      rewrite Hr in Hreg; discriminate.
  - intros calls. by rewrite resolve_lookup, run_lookup.
Qed.

(** C7: [end()] never raises and leaves the context INACTIVE, whatever
    the state it is called in: twice in a row, without a [begin] before
    it, and after a unit of work that failed. *)
Theorem end_never_raises_and_leaves_inactive (ctx : @ActorContext Actor) :
  end_ ctx = (Ok tt, INACTIVE)
  ∧ bind end_ (fun _ => end_) ctx = (Ok tt, INACTIVE)
  ∧ end_ (INACTIVE (Actor := Actor)) = (Ok tt, INACTIVE)
  ∧ (∀ (A : Type) (actor : Actor) (work : M (@ActorContext Actor) A),
       current_actor ctx = None ->
       unit_of_work actor work ctx = (fst (work (ACTIVE actor)), INACTIVE)).
Proof.
  split; [done |]. split; [done |]. split; [done |].
  intros A actor work Hnone. unfold unit_of_work, begin. rewrite Hnone.
  by destruct (work (ACTIVE actor)).
Qed.

Section Diff.
Variable repr : Value -> string.
Variable absent_repr : string.

Lemma diff_lookup (old new : gmap string Value) (f : string) :
  diff repr absent_repr old new !! f
  = diff_field repr absent_repr (old !! f) (new !! f).
Proof.
  unfold diff. rewrite lookup_merge.
  by destruct (old !! f), (new !! f).
Qed.

Lemma diff_changed (old new : gmap string Value) (f : string) (v v' : Value) :
  old !! f = Some v -> new !! f = Some v' -> repr v ≠ repr v' ->
  diff repr absent_repr old new !! f = Some (repr v, repr v').
Proof.
  intros Hold Hnew Hne. rewrite diff_lookup, Hold, Hnew.
  cbn [diff_field]. by rewrite decide_False.
Qed.

Lemma diff_unchanged (old new : gmap string Value) :
  (∀ f, repr <$> old !! f = repr <$> new !! f) ->
  diff repr absent_repr old new = ∅.
Proof.
  intros Hsame. apply map_eq. intros f.
  rewrite diff_lookup, lookup_empty. specialize (Hsame f).
  destruct (old !! f) as [v |], (new !! f) as [v' |];
    cbn in Hsame; try discriminate; [| done].
  injection Hsame as Hsame. cbn [diff_field]. by rewrite decide_True.
Qed.

Variable resolve_related : @Entity Model Value -> string
                           -> option (@Entity Model Value).
Variable registry : gmap Model (list string).
Variable ctx : @ActorContext Actor.

(** C5: an update in which the representation of a field changed
    appends exactly one entry, of action UPDATE, whose changes map the
    field to the old and the new representation; an update in which no
    representation changed leaves the store as it was. *)
Theorem update_logs_one_entry_iff_changed
    (old_values : gmap string Value) (ent : @Entity Model Value)
    (explicit : option Actor) (now : nat) (st : @Store Model Actor) :
  (∀ f v v',
      old_values !! f = Some v ->
      ent_values ent !! f = Some v' ->
      repr v ≠ repr v' ->
      ∃ e, log_entries
             (on_update repr absent_repr resolve_related registry ctx
                        old_values ent explicit now st)
           = log_entries st ++ [e]
           ∧ action e = UPDATE
           ∧ changes e !! f = Some (repr v, repr v')
           ∧ entity_type e = ent_type ent
           ∧ entity_id e = ent_id ent)
  ∧ ((∀ f, repr <$> old_values !! f = repr <$> ent_values ent !! f) ->
     on_update repr absent_repr resolve_related registry ctx
               old_values ent explicit now st = st).
Proof.
  split.
  - intros f v v' Hold Hnew Hne.
    pose proof (diff_changed _ _ _ _ _ Hold Hnew Hne) as Hd.
    unfold on_update, notify, record.
    destruct (decide (diff repr absent_repr old_values (ent_values ent) = ∅))
      as [Hempty | _].
    { rewrite Hempty, lookup_empty in Hd. discriminate. }
    eexists. cbn [log_entries]. split; [reflexivity |]. by cbn.
  - intros Hsame. unfold on_update, notify, record.
    by rewrite decide_True by by apply diff_unchanged.
Qed.

Lemma propagate_path_relation (e : @LogEntry Model Actor)
    (ent : @Entity Model Value) (path wanted : string) :
  path ≠ wanted ->
  filter (fun r => relation r = wanted)
         (propagate_path resolve_related e ent path) = [].
Proof.
  intros Hne. unfold propagate_path.
  destruct (resolve_related ent path); [| done].
  rewrite filter_cons_False; [done |]. cbn. congruence.
Qed.

Lemma propagate_other_paths (e : @LogEntry Model Actor)
    (ent : @Entity Model Value) (wanted : string) (paths : list string) :
  wanted ∉ paths ->
  filter (fun r => relation r = wanted)
         (flat_map (propagate_path resolve_related e ent) paths) = [].
Proof.
  induction paths as [| path paths IH]; [done |].
  intros Hnotin. apply not_elem_of_cons in Hnotin as [Hne Hnotin].
  cbn [flat_map]. rewrite filter_app, IH by done.
  rewrite propagate_path_relation by done. done.
Qed.

(** One related entry per registered path that resolves. *)
Lemma propagate_one_per_path (e : @LogEntry Model Actor)
    (ent ancestor : @Entity Model Value) (wanted : string)
    (paths : list string) :
  NoDup paths -> wanted ∈ paths ->
  resolve_related ent wanted = Some ancestor ->
  filter (fun r => relation r = wanted)
         (flat_map (propagate_path resolve_related e ent) paths)
  = [related_entry e ancestor wanted].
Proof.
  intros Hnodup Hin Hanc.
  induction Hnodup as [| path paths Hnotin Hnodup IH]; [by inversion Hin |].
  cbn [flat_map]. rewrite filter_app.
  destruct (decide (path = wanted)) as [-> | Hne].
  - rewrite propagate_other_paths by done.
    unfold propagate_path. rewrite Hanc.
    by rewrite filter_cons_True.
  - rewrite propagate_path_relation by done.
    apply elem_of_cons in Hin as [-> | Hin]; [done |].
    by rewrite IH.
Qed.

Lemma related_history_snoc (target ancestor : @Entity Model Value)
    (e : @LogEntry Model Actor) (path : string)
    (st st' : @Store Model Actor) :
  ent_type ancestor = ent_type target ->
  ent_id ancestor = ent_id target ->
  related_log_entries st'
  = related_log_entries st ++ [related_entry e ancestor path] ->
  related_history target st'
  = related_history target st ++ [related_entry e ancestor path].
Proof.
  intros Htype Hid Hst'. unfold related_history. rewrite Hst'.
  rewrite filter_app. f_equal. by rewrite filter_cons_True.
Qed.

(** C6: for a model registered with the relation path ["parent"],
    creating a child whose parent resolves appends the child's CREATE
    entry and exactly one related entry of relation ["parent"]; it sits
    on the parent and refers to that CREATE entry.  When ["parent"] is
    the whole registration it is the only related entry added. *)
Theorem create_child_logs_one_related_entry_on_parent
    (registry0 : gmap Model (list string)) (relations : list string)
    (child parent : @Entity Model Value)
    (explicit : option Actor) (now : nat) (st : @Store Model Actor) :
  register (ent_type child) relations registry0 = (Ok tt, registry) ->
  NoDup relations ->
  "parent" ∈ relations ->
  resolve_related child "parent" = Some parent ->
  ∃ e added,
    log_entries (on_create repr absent_repr resolve_related registry ctx
                           child explicit now st)
    = log_entries st ++ [e]
    ∧ action e = CREATE
    ∧ entity_type e = ent_type child
    ∧ entity_id e = ent_id child
    ∧ related_log_entries
        (on_create repr absent_repr resolve_related registry ctx
                   child explicit now st)
      = related_log_entries st ++ added
    ∧ filter (fun r => relation r = "parent") added
      = [related_entry e parent "parent"]
    ∧ (relations = ["parent"] ->
       added = [related_entry e parent "parent"]
       ∧ related_history parent
           (on_create repr absent_repr resolve_related registry ctx
                      child explicit now st)
         = related_history parent st ++ [related_entry e parent "parent"]).
Proof.
  intros Hreg Hnodup Hin Hparent.
  assert (resolve (ent_type child) registry = relations) as Hres.
  { rewrite resolve_lookup.
    replace registry with (snd (register (ent_type child) relations registry0))
      by (by rewrite Hreg).
    destruct (decide (Forall (resolves (ent_type child)) relations))
      as [Hall | Hnot].
    - rewrite register_ok by done. cbn [snd]. by rewrite lookup_insert_eq.
    - destruct (register_bad (ent_type child) relations registry0 Hnot)
        as (? & ? & ? & _ & _ & [[_ Hr] | [_ Hr]]);
        rewrite Hr in Hreg; discriminate. }
  unfold on_create, notify, record. cbn [log_entries related_log_entries].
  eexists. eexists. split; [reflexivity |].
  split; [reflexivity |]. split; [reflexivity |]. split; [reflexivity |].
  split; [reflexivity |]. unfold propagate. rewrite Hres. split.
  - by apply propagate_one_per_path.
  - intros ->. cbn [flat_map]. unfold propagate_path. rewrite Hparent.
    split; [done |]. by apply related_history_snoc.
Qed.

End Diff.
End Logging.
End AuditFacts.

(** ** The test application *)

Module TestAppFacts.
Import Relations Audit RelationsFacts AuditFacts TestApp.

(** C1 on the test models: [parent] resolves, [parent__text] stops at
    the field [text] of [SimpleModel]. *)
Lemma register_child_with_text_raises :
  fst (register "SimpleChildModel" ["parent"; "parent__text"] ∅)
  = Raise (ValueError (error_message "SimpleChildModel" "SimpleModel" "text")).
Proof.
  destruct (register_succeeds_iff_every_hop_is_a_relation
              "SimpleChildModel" ["parent"; "parent__text"] ∅)
    as [_ [Hstop _]].
  apply (Hstop ["parent"] "parent__text" [] "SimpleModel" "text").
  - reflexivity.
  - repeat constructor. vm_compute. eauto.
  - exists ["parent"], []. split; reflexivity.
  - reflexivity.
Defined.

(** C2 on the test models: a failed registration keeps the earlier
    one. *)
Lemma register_child_with_text_keeps_registry :
  ∃ e, InvalidRelationError e
       ∧ register "SimpleChildModel" ["text"]
                  {[ "SimpleChildModel" := ["parent"] ]}
         = (Raise e, {[ "SimpleChildModel" := ["parent"] ]})
       ∧ snd (register "SimpleChildModel" ["text"]
                       {[ "SimpleChildModel" := ["parent"] ]})
           !! "SimpleChildModel"
         = ({[ "SimpleChildModel" := ["parent"] ]}
              : gmap string (list string)) !! "SimpleChildModel".
Proof.
  apply (register_invalid_raises_and_keeps_registry
           "SimpleChildModel" ["text"] {[ "SimpleChildModel" := ["parent"] ]}).
  apply Exists_cons_hd. vm_compute. intros [target Htarget]. discriminate.
Defined.

(** C3 on the test models. *)
Lemma resolve_child_after_register :
  resolve "SimpleModel" (∅ : gmap string (list string)) = []
  ∧ resolve "SimpleChildModel"
            ({[ "SimpleChildModel" := ["parent"] ]}
               : gmap string (list string))
    = ["parent"].
Proof.
  destruct (resolve_returns_the_current_registration "SimpleModel")
    as [Hnone _].
  destruct (resolve_returns_the_current_registration "SimpleChildModel")
    as (_ & _ & _ & Hreg & _).
  split.
  - apply Hnone. reflexivity.
  - apply (Hreg ["parent"] ∅). vm_compute. reflexivity.
Defined.

(** C4 as stated fails: a dotted path is one component for the
    validator, which asks the framework for a field of that name, while
    its two dot-separated components are relations. *)
Lemma dotted_path_is_not_cut :
  PyStr.str_split "__" "child.parent" = ["child.parent"]
  ∧ PyStr.str_split "." "child.parent" = ["child"; "parent"]
  ∧ validate_relation "GrandChildModel" "child.parent"
      (∅ : gmap string (list string))
    ≠ validate_parts "GrandChildModel" "GrandChildModel"
        (PyStr.str_split "." "child.parent") ∅.
Proof.
  split; [reflexivity |]. split; [reflexivity |].
  vm_compute. discriminate.
Defined.

(** C4 on the test models: the path of two hops. *)
Lemma child_parent_path_is_cut :
  PyStr.str_split "__" "child__parent" = ["child"; "parent"]
  ∧ ∀ (model : string) (s : gmap string (list string)),
      validate_relation model "child__parent" s
      = validate_parts model model ["child"; "parent"] s.
Proof.
  destruct (relation_path_is_cut_at_double_underscore (Model := string))
    as [_ Hcut].
  apply (Hcut ["child"; "parent"]).
  - discriminate.
  - repeat constructor.
Defined.

(** C5 on the test object: setting [boolean] to [True]. *)
Lemma update_boolean_logs_one_entry :
  ∃ e, log_entries
         (on_update py_str "None" test_resolve_related ∅
                    (INACTIVE (Actor := string))
                    (ent_values (simple_obj false)) (simple_obj true)
                    None 0 empty_store)
       = log_entries empty_store ++ [e]
       ∧ action e = UPDATE
       ∧ changes e !! "boolean" = Some ("False", "True")
       ∧ entity_type e = "SimpleModel"
       ∧ entity_id e = "1".
Proof.
  destruct (update_logs_one_entry_iff_changed
              py_str "None" test_resolve_related ∅
              (INACTIVE (Actor := string))
              (ent_values (simple_obj false)) (simple_obj true)
              None 0 empty_store) as [Hchanged _].
  apply (Hchanged "boolean" (PyBool false) (PyBool true)).
  - reflexivity.
  - reflexivity.
  - discriminate.
Defined.

(** C6 on the test objects. *)
Lemma create_child_logs_on_parent :
  ∃ e added,
    log_entries (on_create py_str "None" test_resolve_related
                   {[ "SimpleChildModel" := ["parent"] ]}
                   (INACTIVE (Actor := string)) the_child None 0 empty_store)
    = [] ++ [e]
    ∧ action e = CREATE
    ∧ entity_type e = "SimpleChildModel"
    ∧ entity_id e = "1"
    ∧ related_log_entries
        (on_create py_str "None" test_resolve_related
           {[ "SimpleChildModel" := ["parent"] ]}
           (INACTIVE (Actor := string)) the_child None 0 empty_store)
      = [] ++ added
    ∧ filter (fun r => relation r = "parent") added
      = [related_entry e the_parent "parent"]
    ∧ (["parent"] = ["parent"] ->
       added = [related_entry e the_parent "parent"]
       ∧ related_history the_parent
           (on_create py_str "None" test_resolve_related
              {[ "SimpleChildModel" := ["parent"] ]}
              (INACTIVE (Actor := string)) the_child None 0 empty_store)
         = related_history the_parent empty_store
           ++ [related_entry e the_parent "parent"]).
Proof.
  apply (create_child_logs_one_related_entry_on_parent
           py_str "None" test_resolve_related
           {[ "SimpleChildModel" := ["parent"] ]}
           (INACTIVE (Actor := string)) ∅ ["parent"]
           the_child the_parent None 0 empty_store).
  - vm_compute. reflexivity.
  - repeat constructor; vm_compute; intros Hin; inversion Hin.
  - constructor.
  - reflexivity.
Defined.

(** C7 on the middleware test: the unit of work fails and the context is
    INACTIVE afterwards. *)
Lemma end_after_exception :
  unit_of_work "test" (raise (A := unit) (ValidationError "Test"))
               (INACTIVE (Actor := string))
  = (Raise (ValidationError "Test"), INACTIVE).
Proof.
  destruct (end_never_raises_and_leaves_inactive (INACTIVE (Actor := string)))
    as (_ & _ & _ & Hwork).
  apply (Hwork unit "test" (raise (ValidationError "Test"))).
  reflexivity.
Defined.

(** C8 on the test models. *)
Lemma register_child_twice :
  bind (register "GrandChildModel" ["child"])
       (fun _ => register "GrandChildModel" ["child__parent"])
       (∅ : gmap string (list string))
  = (Ok tt, <["GrandChildModel" := ["child__parent"]]> ∅)
  ∧ snd (bind (register "GrandChildModel" ["child"])
              (fun _ => register "GrandChildModel" ["child__parent"])
              (∅ : gmap string (list string))) !! "GrandChildModel"
    = Some ["child__parent"].
Proof.
  apply (register_last_write_wins
           "GrandChildModel" ["child"] ["child__parent"] ∅).
  - repeat constructor. vm_compute. eauto.
  - repeat constructor. vm_compute. eauto.
Defined.

(** C9 on the fresh registry. *)
Lemma unregister_unknown_model :
  unregister "SimpleModel" (∅ : gmap string (list string)) = (Ok tt, ∅).
Proof.
  destruct (unregister_never_raises_and_is_idempotent
              "SimpleModel" (∅ : gmap string (list string)))
    as (_ & _ & Hnoop & _).
  apply Hnoop. reflexivity.
Defined.

(** C10 on the test models. *)
Lemma register_child_keeps_grandchild :
  snd (register "SimpleChildModel" ["text"]
         {[ "GrandChildModel" := ["child"] ]}) !! "GrandChildModel"
  = ({[ "GrandChildModel" := ["child"] ]} : gmap string (list string))
      !! "GrandChildModel"
  ∧ snd (unregister "SimpleChildModel"
           {[ "GrandChildModel" := ["child"] ]}) !! "GrandChildModel"
    = ({[ "GrandChildModel" := ["child"] ]} : gmap string (list string))
        !! "GrandChildModel".
Proof.
  apply (other_models_keep_their_registration
           "SimpleChildModel" "GrandChildModel" ["text"]
           {[ "GrandChildModel" := ["child"] ]}).
  discriminate.
Defined.

End TestAppFacts.

(** * Further properties of [relations.py] *)

(** ** The components of a path *)

Module PyStrMore.
Import PyStr PyStrFacts Relations.

Lemma has_dunder_cons (c : ascii) (s : string) :
  has_dunder (String c s) = String.prefix "__" (String c s) || has_dunder s.
Proof.
  destruct s as [| d s]; [| cbn [has_dunder]].
  - cbn [has_dunder]. rewrite prefix_cons. by destruct (ascii_dec "_" c).
  - f_equal. rewrite prefix_cons.
    destruct (Ascii.eqb_spec c "_") as [-> | Hc].
    + destruct (ascii_dec "_" "_"); [| done]. rewrite prefix_cons.
      destruct (Ascii.eqb_spec d "_") as [-> | Hd].
      * destruct (ascii_dec "_" "_"); [| done]. by rewrite prefix_nil.
      * destruct (ascii_dec "_" d); [congruence | done].
    + destruct (ascii_dec "_" c); [congruence | done].
Qed.

Lemma has_dunder_mentions (s : string) :
  has_dunder s = true <-> mentions "__" s.
Proof.
  unfold mentions. split.
  - induction s as [| c s IH]; [discriminate |].
    rewrite has_dunder_cons. intros [Hp | Hs]%orb_true_iff.
    + apply prefix_dunder_true in Hp as [-> [r ->]]. by exists ""%string, r.
    + destruct (IH Hs) as (a & b & ->). by exists (String c a), b.
  - intros (a & b & ->). induction a as [| c a IH].
    + change ("" ++ "__" ++ b)%string with (String "_" (String "_" b)).
      rewrite has_dunder_cons, prefix_dunder_sep. done.
    + change (String c a ++ "__" ++ b)%string
        with (String c (a ++ "__" ++ b))%string.
      rewrite has_dunder_cons, IH. apply orb_true_r.
Qed.

(** The first component of a split is where the string starts. *)
Lemma split_head_starts (s h : string) (t : list string) :
  split_from "__" 0 s = h :: t -> exists rest, s = (h ++ rest)%string.
Proof.
  intros Hs. pose proof (join_split_dunder s) as Hj.
  unfold str_split in Hj. rewrite Hs in Hj. unfold str_join in Hj.
  destruct t as [| h' t]; cbn [String.concat] in Hj.
  - exists ""%string. by rewrite append_empty_r.
  - by eexists.
Qed.

Lemma split_components_aux (n : nat) :
  forall s, String.length s <= n ->
            Forall (fun p => has_dunder p = false) (split_from "__" 0 s).
Proof.
  induction n as [| n IH]; intros [| c s] Hlen;
    cbn [String.length] in Hlen; try lia.
  - by repeat constructor.
  - by repeat constructor.
  - destruct (String.prefix "__" (String c s)) eqn:Hp.
    + apply prefix_dunder_true in Hp as [-> [r ->]].
      rewrite split_dunder_sep. constructor; [done |].
      apply IH. cbn [String.length] in Hlen. lia.
    + rewrite split_dunder_char by done.
      pose proof (IH s ltac:(lia)) as Hall.
      destruct (split_from "__" 0 s) as [| h t] eqn:Hs.
      { by destruct (split_from_nonempty "__" s 0). }
      cbn [cons_head]. inversion Hall as [| ? ? Hh Ht]; subst.
      constructor; [| done].
      rewrite has_dunder_cons, Hh, orb_false_r.
      destruct (split_head_starts s h t Hs) as [rest ->].
      destruct (String.prefix "__" (String c h)) eqn:Hph; [| done].
      apply prefix_dunder_true in Hph as [-> [h' ->]].
      change (String "_" h' ++ rest)%string
        with (String "_" (h' ++ rest))%string in Hp.
      by rewrite prefix_dunder_sep in Hp.
Qed.

Lemma split_without_dunder (s : string) :
  has_dunder s = false -> split_from "__" 0 s = [s].
Proof.
  induction s as [| c s IH]; [done |].
  rewrite has_dunder_cons. intros [Hp Hs]%orb_false_iff.
  rewrite split_dunder_char by done. by rewrite IH.
Qed.

(** X10: no component of [relation.split('__')] holds the separator. *)
Theorem no_component_holds_the_separator (relation : string) :
  Forall (fun part => ¬ mentions "__" part) (str_split "__" relation).
Proof.
  unfold str_split.
  pose proof (split_components_aux (String.length relation) relation
                ltac:(lia)) as Hall.
  eapply Forall_impl; [exact Hall |].
  intros part Hpart Hm. apply has_dunder_mentions in Hm. congruence.
Qed.

(** X11: a path is a single component, itself, exactly when it holds no
    double underscore; single underscores do not cut it. *)
Theorem single_component_iff_no_separator (relation : string) :
  str_split "__" relation = [relation] <-> ¬ mentions "__" relation.
Proof.
  split.
  - intros Hs Hm.
    pose proof (split_components_aux (String.length relation) relation
                  ltac:(lia)) as Hall.
    unfold str_split in Hs. rewrite Hs in Hall.
    apply Forall_inv in Hall. apply has_dunder_mentions in Hm. congruence.
  - intros Hno. apply split_without_dunder.
    destruct (has_dunder relation) eqn:Hd; [| done].
    destruct Hno. by apply has_dunder_mentions.
Qed.

End PyStrMore.

(** ** The registry *)

Module RelationsMore.
Import Relations RelationsFacts.

Section Registry.
Context {Model : Type} `{Countable Model} `{!ModelMeta Model}.

Lemma validate_parts_any_state {S S' : Type} (model : Model)
    (parts : list string) :
  forall (parent : Model) (s : S) (s' : S'),
    validate_parts model parent parts s
    = (fst (validate_parts model parent parts s'), s).
Proof.
  induction parts as [| part rest IH]; intros parent s s'; [done |].
  cbn [validate_parts]. unfold bind, meta_get_field.
  destruct (get_field parent part) as [[related |] |]; cbn [ret raise];
    [apply IH | done | done].
Qed.

Lemma validate_relations_any_state {S S' : Type} (model : Model)
    (relations : list string) (s : S) (s' : S') :
  _validate_relations model relations s
  = (fst (_validate_relations model relations s'), s).
Proof.
  induction relations as [| relation rest IH]; [done |].
  cbn [_validate_relations]. unfold bind.
  destruct (decide (resolves model relation)) as [Hok | Hbad].
  - by rewrite !validate_relation_ok.
  - destruct (validate_relation_bad model relation s' Hbad)
      as (parent & part & _ & Hstop).
    apply stops_at_raises in Hstop as (e & He & _).
    unfold validate_relation in *.
    rewrite (validate_parts_any_state model _ model s s'), He. done.
Qed.

Lemma register_snd (model : Model) (relations : list string)
    (self : gmap Model (list string)) :
  snd (register model relations self)
  = if decide (Forall (resolves model) relations)
    then <[model := relations]> self
    else self.
Proof.
  destruct (decide (Forall (resolves model) relations)) as [Hall | Hnot].
  - by rewrite register_ok.
  - destruct (register_bad model relations self Hnot)
      as (? & ? & ? & _ & _ & [[_ ->] | [_ ->]]); done.
Qed.

Lemma register_ok_inv (model : Model) (relations : list string)
    (self : gmap Model (list string)) :
  fst (register model relations self) = Ok tt ->
  Forall (resolves model) relations.
Proof.
  intros Hok.
  destruct (decide (Forall (resolves model) relations)) as [| Hnot]; [done |].
  destruct (register_bad model relations self Hnot)
    as (? & ? & ? & _ & _ & [[_ Hr] | [_ Hr]]);
    rewrite Hr in Hok; discriminate.
Qed.

(** X1: whether a registration is let through does not depend on what
    the registry holds, and the validator leaves the registry as it is. *)
Theorem validation_ignores_the_registry
    (model : Model) (relations : list string)
    (self self' : gmap Model (list string)) :
  fst (register model relations self) = fst (register model relations self')
  ∧ snd (_validate_relations model relations self) = self.
Proof.
  split; [| apply validate_relations_state].
  unfold register, bind.
  rewrite (validate_relations_any_state model relations self self').
  rewrite (validate_relations_any_state model relations self' self') at 2.
  by destruct (fst (_validate_relations model relations self')) as [[] |].
Qed.

(** X2: the relations are validated in the order of iteration and the
    first one that does not resolve decides: the call ends as the
    registration of that relation alone would, whatever comes after. *)
Theorem first_failing_relation_decides
    (model : Model) (before after : list string) (bad : string)
    (self : gmap Model (list string)) :
  Forall (resolves model) before ->
  ¬ resolves model bad ->
  register model (before ++ bad :: after) self = register model [bad] self.
Proof.
  intros Hbefore Hbad.
  destruct (validate_relation_bad model bad self Hbad)
    as (parent & part & _ & Hstop).
  apply stops_at_raises in Hstop as (e & He & _).
  unfold register, bind.
  rewrite (validate_relations_first_bad model before after bad e self)
    by done.
  by rewrite (validate_relations_first_bad model [] [] bad e self).
Qed.

(** X3: when validation comes to a component that names no field of the
    model reached, the framework's [FieldDoesNotExist] leaves [register]
    as it was raised, and the registry is unchanged. *)
Theorem unknown_field_raises_field_does_not_exist
    (model : Model) (before after : list string) (relation : string)
    (parent : Model) (part : string) (self : gmap Model (list string)) :
  Forall (resolves model) before ->
  reaches model relation parent part ->
  get_field parent part = None ->
  register model (before ++ relation :: after) self
  = (Raise FieldDoesNotExist, self).
Proof.
  intros Hbefore (b & a & Hsplit & Hfollow) Hfield.
  assert (validate_relation model relation self
          = (Raise FieldDoesNotExist, self)) as Hrel.
  { unfold validate_relation. rewrite Hsplit.
    destruct (validate_parts_stops model model parent b a part self Hfollow)
      as [[Hplain _] | [_ ->]]; [congruence | congruence | done]. }
  unfold register, bind.
  by rewrite (validate_relations_first_bad model before after relation _
                self Hbefore Hrel).
Qed.

(** X4: a registration without relations is always let through and
    stored; a relation, the empty string included, is never let through
    without a lookup: its first component must be a relation of the
    model. *)
Theorem empty_collection_passes_but_every_path_is_looked_up
    (model : Model) (self : gmap Model (list string)) :
  register model [] self = (Ok tt, <[model := []]> self)
  ∧ (∀ relation,
       fst (register model [relation] self) = Ok tt ->
       ∃ part rest related,
         PyStr.str_split "__" relation = part :: rest
         ∧ get_field model part = Some (RelatedField related))
  ∧ (fst (register model [""] self) = Ok tt
     ↔ ∃ related, get_field model "" = Some (RelatedField related)).
Proof.
  split; [done |]. split.
  - intros relation Hok. apply register_ok_inv in Hok.
    apply Forall_inv in Hok as [target Hfollow].
    destruct (PyStr.str_split "__" relation) as [| part rest] eqn:Hsplit.
    { by destruct (PyStrFacts.split_from_nonempty "__" relation 0). }
    cbn [follow] in Hfollow.
    destruct (get_field model part) as [[related |] |] eqn:Hfield;
      [| done | done].
    by exists part, rest, related.
  - split.
    + intros Hok. apply register_ok_inv in Hok.
      apply Forall_inv in Hok as [target Hfollow].
      change (PyStr.str_split "__" "") with [""] in Hfollow.
      cbn [follow] in Hfollow.
      destruct (get_field model "") as [[related |] |] eqn:Hfield;
        [| done | done].
      by exists related.
    + intros [related Hfield]. rewrite register_ok; [done |].
      constructor; [| done]. exists related.
      change (PyStr.str_split "__" "") with [""]. cbn [follow].
      by rewrite Hfield.
Qed.

Lemma call_lookup (c : Call) (model : Model)
    (self : gmap Model (list string)) :
  snd (call c self) !! model = current_registration model [c] (self !! model).
Proof.
  destruct c as [m relations | m]; cbn [call current_registration].
  - rewrite register_lookup. by destruct (decide _).
  - rewrite unregister_lookup. by destruct (decide _).
Qed.

Lemma call_keeps_well_registered (c : Call)
    (self : gmap Model (list string)) :
  well_registered self -> well_registered (snd (call c self)).
Proof.
  intros Hwell model relations. rewrite call_lookup.
  destruct c as [m rels | m]; cbn [current_registration].
  - destruct (decide (m = model ∧ Forall (resolves m) rels))
      as [[-> Hall] | _]; [by intros [= <-] | apply Hwell].
  - destruct (decide (m = model)); [done | apply Hwell].
Qed.

(** X5: the registry holds only registrations that the validator lets
    through: the fresh registry does, and every call keeps it so. *)
Theorem registry_holds_only_valid_registrations (calls : list Call) :
  well_registered (run calls logrels)
  ∧ ∀ self : gmap Model (list string),
      well_registered self -> well_registered (run calls self).
Proof.
  assert (∀ self : gmap Model (list string),
             well_registered self -> well_registered (run calls self))
    as Hrun.
  { induction calls as [| c calls IH]; intros self Hwell; [done |].
    cbn [run]. apply IH. by apply call_keeps_well_registered. }
  split; [| done]. apply Hrun. intros model relations.
  unfold logrels. by rewrite lookup_empty.
Qed.

(** X6: [register] followed by [unregister] of the same model ends as
    [unregister] alone when the relations resolve, and leaves a registry
    without that model as it was in every case. *)
Theorem register_then_unregister
    (model : Model) (relations : list string)
    (self : gmap Model (list string)) :
  (Forall (resolves model) relations ->
   bind (register model relations) (fun _ => unregister model) self
   = unregister model self)
  ∧ (self !! model = None ->
     snd (bind (register model relations) (fun _ => unregister model) self)
     = self).
Proof.
  split.
  - intros Hall. unfold bind at 1. rewrite register_ok by done.
    unfold unregister, bind, pop_default, ret.
    by rewrite delete_insert_eq.
  - intros Hnone. unfold bind at 1.
    destruct (decide (Forall (resolves model) relations)) as [Hall | Hnot].
    + rewrite register_ok by done.
      unfold unregister, bind, pop_default, ret. cbn [snd].
      by rewrite delete_insert_eq, delete_id.
    + destruct (register_bad model relations self Hnot)
        as (? & ? & ? & _ & _ & [[_ ->] | [_ ->]]); done.
Qed.

(** X7: [unregister] before a [register] that is let through changes
    nothing: the call ends as the [register] alone. *)
Theorem unregister_then_register
    (model : Model) (relations : list string)
    (self : gmap Model (list string)) :
  Forall (resolves model) relations ->
  bind (unregister model) (fun _ => register model relations) self
  = register model relations self.
Proof.
  intros Hall. unfold bind at 1, unregister, bind, pop_default, ret.
  rewrite !register_ok by done. by rewrite insert_delete_eq.
Qed.

(** X8: two calls about different models can be made in either order,
    whether they are let through or not. *)
Theorem calls_on_different_models_commute
    (c c' : Call) (self : gmap Model (list string)) :
  call_model c ≠ call_model c' ->
  run [c; c'] self = run [c'; c] self.
Proof.
  intros Hne. apply map_eq. intros k. rewrite !run_lookup.
  destruct c as [m rels | m], c' as [m' rels' | m'];
    cbn [call_model] in Hne; cbn [current_registration];
    repeat match goal with
           | |- context [decide ?P] => destruct (decide P)
           end;
    intuition congruence.
Qed.

(** X9: a registration that is let through with a path of several hops
    is let through with every path that is a beginning of it. *)
Theorem beginning_of_a_valid_path_is_valid
    (model : Model) (before after : list string)
    (self self' : gmap Model (list string)) :
  before ≠ [] ->
  Forall (fun p => PyStr.lone_underscores p = true) (before ++ after) ->
  fst (register model [PyStr.str_join "__" (before ++ after)] self) = Ok tt ->
  fst (register model [PyStr.str_join "__" before] self') = Ok tt.
Proof.
  intros Hne Hnames Hok. apply register_ok_inv in Hok.
  apply Forall_inv in Hok as [target Hfollow].
  rewrite register_ok; [done |]. constructor; [| done].
  unfold resolves in *.
  rewrite PyStrFacts.split_join_dunder in Hfollow;
    [| by destruct before | done].
  rewrite PyStrFacts.split_join_dunder;
    [| done | by apply Forall_app in Hnames as [? _]].
  rewrite follow_app in Hfollow.
  by destruct (follow model before).
Qed.

End Registry.
End RelationsMore.

(** ** The further properties on the test application *)

Module TestAppMore.
Import Relations RelationsFacts RelationsMore TestApp.

(** X2 on the test models: [text] decides, [missing] is not looked at. *)
Lemma text_before_missing :
  register "SimpleChildModel" (["parent"] ++ "text" :: ["missing"])
           (∅ : gmap string (list string))
  = register "SimpleChildModel" ["text"] ∅.
Proof.
  apply (first_failing_relation_decides
           "SimpleChildModel" ["parent"] ["missing"] "text" ∅).
  - repeat constructor. vm_compute. eauto.
  - vm_compute. intros [target Htarget]. discriminate.
Defined.

(** X3 on the test models: [SimpleModel], reached over [parent], has no
    field [owner]. *)
Lemma parent_owner_is_unknown :
  register "SimpleChildModel" ([] ++ "parent__owner" :: [])
           ({[ "SimpleChildModel" := ["parent"] ]}
              : gmap string (list string))
  = (Raise FieldDoesNotExist, {[ "SimpleChildModel" := ["parent"] ]}).
Proof.
  apply (unknown_field_raises_field_does_not_exist
           "SimpleChildModel" [] [] "parent__owner" "SimpleModel" "owner").
  - constructor.
  - exists ["parent"], []. split; reflexivity.
  - reflexivity.
Defined.

(** X4 on the test models. *)
Lemma child_parent_first_component :
  ∃ part rest related,
    PyStr.str_split "__" "child__parent" = part :: rest
    ∧ get_field "GrandChildModel" part = Some (RelatedField related).
Proof.
  destruct (empty_collection_passes_but_every_path_is_looked_up
              "GrandChildModel" (∅ : gmap string (list string)))
    as (_ & Hfirst & _).
  apply (Hfirst "child__parent"). reflexivity.
Defined.

(** X5 on the test models. *)
Lemma registered_child_stays_valid :
  well_registered
    (run [Register "SimpleChildModel" ["text"]; Unregister "SimpleModel"]
         ({[ "SimpleChildModel" := ["parent"] ]}
            : gmap string (list string))).
Proof.
  destruct (registry_holds_only_valid_registrations
              [Register "SimpleChildModel" ["text"]; Unregister "SimpleModel"])
    as [_ Hkeeps].
  apply Hkeeps. intros model relations Hlookup.
  destruct (decide (model = "SimpleChildModel")) as [-> | Hne].
  - rewrite lookup_singleton_eq in Hlookup. injection Hlookup as <-.
    repeat constructor. vm_compute. eauto.
  - rewrite lookup_singleton_ne in Hlookup by done. discriminate.
Defined.

(** X6 on the test models. *)
Lemma register_unregister_child :
  bind (register "SimpleChildModel" ["parent"])
       (fun _ => unregister "SimpleChildModel")
       (∅ : gmap string (list string))
  = unregister "SimpleChildModel" ∅.
Proof.
  destruct (register_then_unregister
              "SimpleChildModel" ["parent"] (∅ : gmap string (list string)))
    as [Hvalid _].
  apply Hvalid. repeat constructor. vm_compute. eauto.
Defined.

(** X7 on the test models. *)
Lemma unregister_register_child :
  bind (unregister "SimpleChildModel")
       (fun _ => register "SimpleChildModel" ["parent"])
       ({[ "SimpleChildModel" := [] ]} : gmap string (list string))
  = register "SimpleChildModel" ["parent"] {[ "SimpleChildModel" := [] ]}.
Proof.
  apply (unregister_then_register
           "SimpleChildModel" ["parent"] {[ "SimpleChildModel" := [] ]}).
  repeat constructor. vm_compute. eauto.
Defined.

(** X8 on the test models: a registration that is turned down and an
    [unregister] of another model. *)
Lemma child_and_grandchild_commute :
  run [Register "SimpleChildModel" ["text"]; Unregister "GrandChildModel"]
      ({[ "GrandChildModel" := ["child"] ]} : gmap string (list string))
  = run [Unregister "GrandChildModel"; Register "SimpleChildModel" ["text"]]
        {[ "GrandChildModel" := ["child"] ]}.
Proof.
  apply (calls_on_different_models_commute
           (Register "SimpleChildModel" ["text"])
           (Unregister "GrandChildModel")).
  discriminate.
Defined.

(** X9 on the test models: [child] is a beginning of [child__parent]. *)
Lemma child_is_valid_as_child_parent_is :
  fst (register "GrandChildModel" [PyStr.str_join "__" ["child"]]
                (∅ : gmap string (list string)))
  = Ok tt.
Proof.
  apply (beginning_of_a_valid_path_is_valid
           "GrandChildModel" ["child"] ["parent"] ∅ ∅).
  - discriminate.
  - repeat constructor.
  - reflexivity.
Defined.

(** X11 on a field name with a single underscore. *)
Lemma created_by_is_one_component :
  PyStr.str_split "__" "created_by" = ["created_by"].
Proof.
  apply (PyStrMore.single_component_iff_no_separator "created_by").
  intros Hm. apply PyStrMore.has_dunder_mentions in Hm. discriminate.
Defined.

End TestAppMore.
